(** * The SAM PIO pin-configuration driver (libsam [pio.c])

    A shallow embedding of [hardware/sam/system/libsam/source/pio.c] and the
    properties its specification states about it.

    The driver works on a memory-mapped register block [Pio] through a pointer.
    Here the block is a record of 32-bit words, every function of the driver is
    a computation in a small monad that threads the block, records each store
    in program order and can stop on an arithmetic fault (the unsigned
    division of [PIO_SetDebounceFilter]). *)

From Stdlib Require Import ZArith List Bool Lia.
Import ListNotations.
Local Open Scope Z_scope.

(** ** 32-bit unsigned words

    [uint32_t] values are integers of [Z] in the range [0 .. 2^32 - 1]; the
    operations that can leave the range are wrapped explicitly. *)

Definition uint32 (x : Z) : Prop := 0 <= x < 2 ^ 32.

Definition wrap32 (x : Z) : Z := x mod 2 ^ 32.

(** [~x] on a [uint32_t]. *)
Definition not32 (x : Z) : Z := wrap32 (Z.lnot x).

(** [a * b] and [a - b] on [uint32_t]. *)
Definition mul32 (a b : Z) : Z := wrap32 (a * b).
Definition sub32 (a b : Z) : Z := wrap32 (a - b).

(** A C condition: any non-zero word is true. *)
Definition truthy (x : Z) : bool := negb (x =? 0).

(** [c ? 1 : 0] and the value of a comparison. *)
Definition of_bool (b : bool) : Z := if b then 1 else 0.

(** ** The register block

    The declaration of [Pio] lives in the chip header, which [pio.c] includes;
    the record below has one field for each register [pio.c] names, and the
    two-element array [PIO_ABCDSR] is the pair of fields [PIO_ABCDSR0] and
    [PIO_ABCDSR1] (the source indexes it with the constants 0 and 1 only). *)

Record Pio : Type := mkPio {
  PIO_PER : Z;      (* pin enable: the pin is driven by the PIO *)
  PIO_PDR : Z;      (* pin disable: the pin is handed to a peripheral *)
  PIO_PSR : Z;      (* pin status *)
  PIO_OER : Z;      (* output enable *)
  PIO_ODR : Z;      (* output disable *)
  PIO_OSR : Z;      (* output status *)
  PIO_IFER : Z;     (* input filter enable *)
  PIO_IFDR : Z;     (* input filter disable *)
  PIO_SODR : Z;     (* set output data *)
  PIO_CODR : Z;     (* clear output data *)
  PIO_ODSR : Z;     (* output data status *)
  PIO_PDSR : Z;     (* pin data status *)
  PIO_IDR : Z;      (* interrupt disable *)
  PIO_MDER : Z;     (* multi-drive enable *)
  PIO_MDDR : Z;     (* multi-drive disable *)
  PIO_PUDR : Z;     (* pull-up disable *)
  PIO_PUER : Z;     (* pull-up enable *)
  PIO_ABCDSR0 : Z;  (* peripheral select, low bit of the code *)
  PIO_ABCDSR1 : Z;  (* peripheral select, high bit of the code *)
  PIO_IFSCDR : Z;   (* filter select: deglitch *)
  PIO_IFSCER : Z;   (* filter select: debounce *)
  PIO_SCDR : Z      (* slow clock divider of the debounce filter *)
}.

(** The names of the registers, used to address a store and to log it. *)
Inductive Reg : Type :=
  | PER | PDR | PSR | OER | ODR | OSR | IFER | IFDR | SODR | CODR | ODSR
  | PDSR | IDR | MDER | MDDR | PUDR | PUER | ABCDSR0 | ABCDSR1 | IFSCDR
  | IFSCER | SCDR.

Definition Reg_eq_dec (a b : Reg) : {a = b} + {a <> b}.
Proof. decide equality. Defined.

Definition Reg_eqb (a b : Reg) : bool :=
  if Reg_eq_dec a b then true else false.

Definition rd (r : Reg) (p : Pio) : Z :=
  match r with
  | PER => PIO_PER p | PDR => PIO_PDR p | PSR => PIO_PSR p
  | OER => PIO_OER p | ODR => PIO_ODR p | OSR => PIO_OSR p
  | IFER => PIO_IFER p | IFDR => PIO_IFDR p
  | SODR => PIO_SODR p | CODR => PIO_CODR p
  | ODSR => PIO_ODSR p | PDSR => PIO_PDSR p
  | IDR => PIO_IDR p
  | MDER => PIO_MDER p | MDDR => PIO_MDDR p
  | PUDR => PIO_PUDR p | PUER => PIO_PUER p
  | ABCDSR0 => PIO_ABCDSR0 p | ABCDSR1 => PIO_ABCDSR1 p
  | IFSCDR => PIO_IFSCDR p | IFSCER => PIO_IFSCER p
  | SCDR => PIO_SCDR p
  end.

(** The block is plain read/write memory: a store replaces the addressed word
    and nothing else. *)
Definition wr (r : Reg) (v : Z) (p : Pio) : Pio :=
  let f := fun r' => if Reg_eqb r r' then v else rd r' p in
  mkPio (f PER) (f PDR) (f PSR) (f OER) (f ODR) (f OSR) (f IFER) (f IFDR)
        (f SODR) (f CODR) (f ODSR) (f PDSR) (f IDR) (f MDER) (f MDDR)
        (f PUDR) (f PUER) (f ABCDSR0) (f ABCDSR1) (f IFSCDR) (f IFSCER)
        (f SCDR).

(** A block with every register at zero. *)
Definition Pio_zero : Pio :=
  mkPio 0 0 0 0 0 0 0 0 0 0 0 0 0 0 0 0 0 0 0 0 0 0.

(** ** The monad of the driver *)

(** The simulated device: the register contents and the stores issued so far,
    oldest first. *)
Record Sim : Type := mkSim {
  regs : Pio;
  writes : list (Reg * Z)
}.

(** A call either returns a value or stops in an arithmetic fault; both carry
    the device as it is at that point. *)
Inductive outcome (A : Type) : Type :=
  | Return (a : A) (s : Sim)
  | Fault (s : Sim).
Arguments Return {A} a s.
Arguments Fault {A} s.

Definition M (A : Type) : Type := Sim -> outcome A.

Definition ret {A : Type} (a : A) : M A := fun s => Return a s.

Definition bind {A B : Type} (c : M A) (k : A -> M B) : M B :=
  fun s => match c s with
           | Return a s' => k a s'
           | Fault s' => Fault s'
           end.

Notation "x <- c ;; k" := (bind c (fun x => k))
  (at level 61, c at next level, right associativity).
Notation "c ;; k" := (bind c (fun _ => k))
  (at level 61, right associativity).

(** [pPio->R = v]. *)
Definition store (r : Reg) (v : Z) : M unit :=
  fun s => Return tt (mkSim (wr r v (regs s)) (writes s ++ [(r, v)])).

(** [pPio->R] as an r-value. *)
Definition load (r : Reg) : M Z :=
  fun s => Return (rd r (regs s)) s.

(** Unsigned division: a zero divisor is the fault. *)
Definition udiv32 (a b : Z) : M Z :=
  fun s => if b =? 0 then Fault s else Return (a / b) s.

(** Running a call on a block, with an empty log. *)
Definition run {A : Type} (c : M A) (p : Pio) : outcome A := c (mkSim p []).

Definition faults {A : Type} (o : outcome A) : bool :=
  match o with Fault _ => true | Return _ _ => false end.

Definition returned {A : Type} (o : outcome A) : option A :=
  match o with Return a _ => Some a | Fault _ => None end.

Definition device {A : Type} (o : outcome A) : Sim :=
  match o with Return _ s => s | Fault s => s end.

(** The values stored to register [r], oldest first. *)
Definition written (r : Reg) (log : list (Reg * Z)) : list Z :=
  map snd (filter (fun w => Reg_eqb (fst w) r) log).

(** How a [switch] arm ends: [break] goes on after the switch, [return]
    leaves the function. *)
Inductive flow (A : Type) : Type :=
  | Break
  | Returned (a : A).
Arguments Break {A}.
Arguments Returned {A} a.

(** ** Pin roles

    Modelled from the spec: the enumeration [EPioType] is declared in the
    driver's header, not in [pio.c]; its members are the roles of the
    specification's data model, under the names the source's [case] labels
    use. *)
Inductive EPioType : Type :=
  | PIO_NOT_A_PIN
  | PIO_PERIPH_A
  | PIO_PERIPH_B
  | PIO_PERIPH_C
  | PIO_PERIPH_D
  | PIO_INPUT
  | PIO_OUTPUT_0
  | PIO_OUTPUT_1.

Definition EPioType_eq_dec (a b : EPioType) : {a = b} + {a <> b}.
Proof. decide equality. Defined.

Definition EPioType_eqb (a b : EPioType) : bool :=
  if EPioType_eq_dec a b then true else false.

(** The roles [PIO_SetPeripheral] accepts. *)
Definition is_peripheral (t : EPioType) : bool :=
  match t with
  | PIO_PERIPH_A | PIO_PERIPH_B | PIO_PERIPH_C | PIO_PERIPH_D => true
  | _ => false
  end.

(** The roles [PIO_Configure] accepts. *)
Definition is_configurable (t : EPioType) : bool :=
  match t with
  | PIO_NOT_A_PIN => false
  | _ => true
  end.

(** ** The primitives of [pio.c] that need no attribute constant *)

Definition PIO_DisableInterrupt (dwMask : Z) : M unit :=
  store IDR dwMask.

Definition PIO_PullUp (dwMask dwPullUpEnable : Z) : M unit :=
  if truthy dwPullUpEnable then store PUER dwMask else store PUDR dwMask.

Definition PIO_SetDebounceFilter (dwMask dwCuttOff : Z) : M unit :=
  store IFSCER dwMask ;;
  q <- udiv32 32678 (mul32 2 dwCuttOff) ;;
  store SCDR (Z.land (sub32 q 1) 0x3FFF).

Definition PIO_Set (dwMask : Z) : M unit :=
  store SODR dwMask.

Definition PIO_Get (dwType : EPioType) (dwMask : Z) : M Z :=
  dwReg <- (if EPioType_eqb dwType PIO_OUTPUT_0
               || EPioType_eqb dwType PIO_OUTPUT_1
            then load ODSR
            else load PDSR) ;;
  if Z.land dwReg dwMask =? 0 then ret 0 else ret 1.

Definition PIO_Clear (dwMask : Z) : M unit :=
  store CODR dwMask.

(** [pPio->R &= v]: the register is read again, then stored. *)
Definition and_assign (r : Reg) (v : Z) : M unit :=
  cur <- load r ;;
  store r (Z.land cur v).

Definition PIO_SetPeripheral (dwType : EPioType) (dwMask : Z) : M unit :=
  store IDR dwMask ;;
  c <- match dwType with
       | PIO_PERIPH_A =>
           dwABCDSR <- load ABCDSR0 ;;
           and_assign ABCDSR0 (Z.land (not32 dwMask) dwABCDSR) ;;
           dwABCDSR <- load ABCDSR1 ;;
           and_assign ABCDSR1 (Z.land (not32 dwMask) dwABCDSR) ;;
           ret Break
       | PIO_PERIPH_B =>
           dwABCDSR <- load ABCDSR0 ;;
           store ABCDSR0 (Z.lor dwMask dwABCDSR) ;;
           dwABCDSR <- load ABCDSR1 ;;
           and_assign ABCDSR1 (Z.land (not32 dwMask) dwABCDSR) ;;
           ret Break
       | PIO_PERIPH_C =>
           dwABCDSR <- load ABCDSR0 ;;
           and_assign ABCDSR0 (Z.land (not32 dwMask) dwABCDSR) ;;
           dwABCDSR <- load ABCDSR1 ;;
           store ABCDSR1 (Z.lor dwMask dwABCDSR) ;;
           ret Break
       | PIO_PERIPH_D =>
           dwABCDSR <- load ABCDSR0 ;;
           store ABCDSR0 (Z.lor dwMask dwABCDSR) ;;
           dwABCDSR <- load ABCDSR1 ;;
           store ABCDSR1 (Z.lor dwMask dwABCDSR) ;;
           ret Break
       | PIO_INPUT | PIO_OUTPUT_0 | PIO_OUTPUT_1 | PIO_NOT_A_PIN =>
           ret (Returned tt)
       end ;;
  match c with
  | Returned v => ret v
  | Break => store PDR dwMask
  end.

Definition PIO_SetOutput
    (dwMask dwDefaultValue dwMultiDriveEnable dwPullUpEnable : Z) : M unit :=
  PIO_DisableInterrupt dwMask ;;
  PIO_PullUp dwMask dwPullUpEnable ;;
  (if truthy dwMultiDriveEnable then store MDER dwMask
   else store MDDR dwMask) ;;
  (if truthy dwDefaultValue then store SODR dwMask
   else store CODR dwMask) ;;
  store OER dwMask ;;
  store PER dwMask.

Definition PIO_GetOutputDataStatus (dwMask : Z) : M Z :=
  psr <- load PSR ;;
  if truthy (Z.land psr dwMask) then
    osr <- load OSR ;;
    if truthy (Z.land osr dwMask) then ret 1 else ret 0
  else ret 0.

(** ** The functions that read the attribute word

    The attribute masks [PIO_PULLUP], [PIO_DEGLITCH], [PIO_OPENDRAIN] and
    [PIO_DEBOUNCE] are macros of the driver's header; [pio.c] only tests a
    word against them, so they are parameters here. *)

Section Attributes.

Variables PIO_PULLUP PIO_DEGLITCH PIO_OPENDRAIN PIO_DEBOUNCE : Z.

Definition PIO_SetInput (dwMask dwAttribute : Z) : M unit :=
  PIO_DisableInterrupt dwMask ;;
  PIO_PullUp dwMask (Z.land dwAttribute PIO_PULLUP) ;;
  (if truthy (Z.land dwAttribute (Z.lor PIO_DEGLITCH PIO_DEBOUNCE))
   then store IFER dwMask
   else store IFDR dwMask) ;;
  (if truthy (Z.land dwAttribute PIO_DEGLITCH)
   then store IFSCDR dwMask
   else if truthy (Z.land dwAttribute PIO_DEBOUNCE)
        then store IFSCER dwMask
        else ret tt) ;;
  store ODR dwMask ;;
  store PER dwMask.

Definition PIO_Configure (dwType : EPioType) (dwMask dwAttribute : Z) : M Z :=
  c <- match dwType with
       | PIO_PERIPH_A | PIO_PERIPH_B | PIO_PERIPH_C | PIO_PERIPH_D =>
           PIO_SetPeripheral dwType dwMask ;;
           PIO_DisableInterrupt dwMask ;;
           PIO_PullUp dwMask (Z.land dwAttribute PIO_PULLUP) ;;
           ret Break
       | PIO_INPUT =>
           PIO_SetInput dwMask dwAttribute ;;
           ret Break
       | PIO_OUTPUT_0 | PIO_OUTPUT_1 =>
           PIO_SetOutput dwMask
             (of_bool (EPioType_eqb dwType PIO_OUTPUT_1))
             (of_bool (truthy (Z.land dwAttribute PIO_OPENDRAIN)))
             (of_bool (truthy (Z.land dwAttribute PIO_PULLUP))) ;;
           ret Break
       | _ => ret (Returned 0)
       end ;;
  match c with
  | Returned v => ret v
  | Break => ret 1
  end.

End Attributes.

(** ** What the specification says, in its own words *)

(** The divider of the debounce filter as the specification computes it:
    [((32768 / (2 * cutoff)) - 1) & 0x3FFF], in exact integer arithmetic. *)
Definition spec_divider (cutoff : Z) : Z :=
  Z.land (32768 / (2 * cutoff) - 1) 0x3FFF.

(** The truth table of the peripheral selectors, as the pair
    (selector1, selector0) of a role. *)
Definition selector_code (r : EPioType) : option (bool * bool) :=
  match r with
  | PIO_PERIPH_A => Some (false, false)
  | PIO_PERIPH_B => Some (false, true)
  | PIO_PERIPH_C => Some (true, false)
  | PIO_PERIPH_D => Some (true, true)
  | _ => None
  end.

(** Bit [i] of mask [m] selects pin [i]. *)
Definition in_mask (m i : Z) : Prop := 0 <= i < 32 /\ Z.testbit m i = true.


(** A function of result type [A] signals failure when some reading of its
    result tells the rejected calls from the accepted ones. *)
Definition signals_failure {A : Type} (rejected accepted : outcome A) : Prop :=
  exists is_failure : A -> bool,
    (exists a, returned rejected = Some a /\ is_failure a = true) /\
    (exists b, returned accepted = Some b /\ is_failure b = false).

(** ** Vocabulary for the remaining properties *)

(** The register [PIO_Get] reads for a role: the output data status for the
    two output roles, the pin data status for every other one. *)
Definition level_register (ty : EPioType) : Reg :=
  match ty with
  | PIO_OUTPUT_0 | PIO_OUTPUT_1 => ODSR
  | _ => PDSR
  end.

(** The two output roles. *)
Definition is_output (ty : EPioType) : bool :=
  match ty with
  | PIO_OUTPUT_0 | PIO_OUTPUT_1 => true
  | _ => false
  end.

(** A block all of whose registers hold 32-bit words. *)
Definition Pio_wf (p : Pio) : Prop := forall r, uint32 (rd r p).

(** The status registers, which the hardware keeps read-only. *)
Definition status_registers : list Reg := [PSR; OSR; ODSR; PDSR].

(** Membership in a list of registers, as a test. *)
Definition mem_reg (r : Reg) (l : list Reg) : bool := existsb (Reg_eqb r) l.

(** The registers a configuration of a role may store to. *)
Definition footprint (ty : EPioType) : list Reg :=
  match ty with
  | PIO_PERIPH_A | PIO_PERIPH_B | PIO_PERIPH_C | PIO_PERIPH_D =>
      [IDR; ABCDSR0; ABCDSR1; PDR; PUER; PUDR]
  | PIO_INPUT =>
      [IDR; PUER; PUDR; IFER; IFDR; IFSCDR; IFSCER; ODR; PER]
  | PIO_OUTPUT_0 | PIO_OUTPUT_1 =>
      [IDR; PUER; PUDR; MDER; MDDR; SODR; CODR; OER; PER]
  | PIO_NOT_A_PIN => []
  end.

(** The stores of a log that address one of the registers of [l], in
    order. *)
Definition stores_to (l : list Reg) (log : list (Reg * Z)) : list (Reg * Z) :=
  filter (fun w => mem_reg (fst w) l) log.

(** Unfolds a call of the driver down to loads and stores. *)
Ltac step_pio :=
  unfold run, PIO_Configure, PIO_SetInput, PIO_SetOutput, PIO_SetPeripheral,
    PIO_SetDebounceFilter, PIO_Get, PIO_GetOutputDataStatus, PIO_PullUp,
    PIO_DisableInterrupt, PIO_Set, PIO_Clear, and_assign;
  cbn [bind ret store load regs writes app].

(** * Properties *)

(** ** The register block as memory *)

Lemma rd_wr_same (r : Reg) (v : Z) (p : Pio) : rd r (wr r v p) = v.
Proof. destruct r; reflexivity. Qed.

Lemma rd_wr_other (r r' : Reg) (v : Z) (p : Pio) :
  r <> r' -> rd r' (wr r v p) = rd r' p.
Proof. intros Hne; destruct r, r'; try reflexivity; now elim Hne. Qed.

(** ** Bits of 32-bit words *)

Lemma uint32_high_bit (m i : Z) : uint32 m -> 32 <= i -> Z.testbit m i = false.
Proof.
  intros Hm Hi. rewrite <- (Z.mod_small m (2 ^ 32)) by exact Hm.
  apply Z.mod_pow2_bits_high; lia.
Qed.

Lemma testbit_not32 (m i : Z) :
  0 <= i < 32 -> Z.testbit (not32 m) i = negb (Z.testbit m i).
Proof.
  intros Hi. unfold not32, wrap32.
  rewrite Z.mod_pow2_bits_low by lia. apply Z.lnot_spec; lia.
Qed.

Lemma truthy_true (x : Z) : truthy x = true <-> x <> 0.
Proof. unfold truthy. destruct (Z.eqb_spec x 0); simpl; split; congruence. Qed.

(** [x & m] is non-zero exactly when [x] has a bit set at a position of [m]. *)
Lemma truthy_land_mask (x m : Z) :
  uint32 m ->
  truthy (Z.land x m) = true <->
  exists i, in_mask m i /\ Z.testbit x i = true.
Proof.
  intros Hm. rewrite truthy_true. split.
  - intros Hne.
    assert (Hpos : 0 < Z.land x m).
    { assert (0 <= Z.land x m) by (apply Z.land_nonneg; right; apply Hm). lia. }
    pose proof (Z.bit_log2 _ Hpos) as Hbit.
    rewrite Z.land_spec in Hbit. apply andb_true_iff in Hbit as [Hx Hb].
    exists (Z.log2 (Z.land x m)). repeat split; try assumption.
    + apply Z.log2_nonneg.
    + destruct (Z_lt_le_dec (Z.log2 (Z.land x m)) 32) as [Hlt | Hge];
        [exact Hlt |].
      rewrite (uint32_high_bit m _ Hm Hge) in Hb. discriminate.
  - intros [i [[Hi Hb] Hx]] Hz.
    assert (Hbit : Z.testbit (Z.land x m) i = true)
      by (rewrite Z.land_spec, Hx, Hb; reflexivity).
    rewrite Hz, Z.bits_0 in Hbit. discriminate.
Qed.

(** ** The debounce divisor *)

(** The divisor of the debounce computation is zero for two cutoffs only. *)
Lemma mul32_2_zero (c : Z) :
  uint32 c -> (mul32 2 c = 0 <-> c = 0 \/ c = 2 ^ 31).
Proof.
  unfold uint32, mul32, wrap32. intros Hc. split.
  - intros Hz.
    destruct (Z_lt_le_dec c (2 ^ 31)) as [Hlt | Hge].
    + rewrite Z.mod_small in Hz by lia. lia.
    + replace (2 * c) with ((2 * c - 2 ^ 32) + 1 * 2 ^ 32) in Hz by lia.
      rewrite Z.mod_add in Hz by lia.
      rewrite Z.mod_small in Hz by lia. lia.
  - intros [-> | ->]; reflexivity.
Qed.

Lemma mul32_2_small (c : Z) : 0 <= c < 2 ^ 31 -> mul32 2 c = 2 * c.
Proof. intros Hc. unfold mul32, wrap32. apply Z.mod_small. lia. Qed.

(** ** [PIO_SetDebounceFilter] *)

(** The call on a cutoff whose doubling does not wrap to zero: both stores are
    issued, the divider last. *)
Lemma PIO_SetDebounceFilter_returns (m c : Z) (p : Pio) :
  mul32 2 c <> 0 ->
  run (PIO_SetDebounceFilter m c) p =
  Return tt
    (mkSim (wr SCDR (Z.land (sub32 (32678 / mul32 2 c) 1) 0x3FFF)
              (wr IFSCER m p))
           [(IFSCER, m);
            (SCDR, Z.land (sub32 (32678 / mul32 2 c) 1) 0x3FFF)]).
Proof.
  intros Hne. step_pio. unfold udiv32.
  destruct (Z.eqb_spec (mul32 2 c) 0) as [Hz | _]; [now elim Hne |].
  reflexivity.
Qed.

(** The call on a cutoff whose doubling is zero: the filter selection is
    stored, the division faults, the divider is not stored. *)
Lemma PIO_SetDebounceFilter_faults (m c : Z) (p : Pio) :
  mul32 2 c = 0 ->
  run (PIO_SetDebounceFilter m c) p =
  Fault (mkSim (wr IFSCER m p) [(IFSCER, m)]).
Proof.
  intros Hz. step_pio. unfold udiv32. rewrite Hz. reflexivity.
Qed.

(** Under the 14-bit mask the wrap of the decrement is invisible. *)
Lemma land_sub32_low14 (q : Z) :
  Z.land (sub32 q 1) 0x3FFF = Z.land (q - 1) 0x3FFF.
Proof.
  apply Z.bits_inj'. intros i Hi. rewrite !Z.land_spec.
  destruct (Z_lt_le_dec i 32) as [Hlt | Hge].
  - unfold sub32, wrap32. rewrite Z.mod_pow2_bits_low by lia. reflexivity.
  - assert (Hm : Z.testbit 0x3FFF i = false)
      by (apply uint32_high_bit; [unfold uint32; lia | exact Hge]).
    rewrite Hm, !andb_false_r. reflexivity.
Qed.

(** What the source computes for an in-range cutoff: the specification's
    formula with the constant 32678 in the place of 32768. *)
Lemma PIO_SetDebounceFilter_divider (m c : Z) (p : Pio) :
  0 < c < 2 ^ 31 ->
  PIO_SCDR (regs (device (run (PIO_SetDebounceFilter m c) p))) =
  Z.land (32678 / (2 * c) - 1) 0x3FFF.
Proof.
  intros Hc. rewrite PIO_SetDebounceFilter_returns
    by (rewrite mul32_2_small by lia; lia).
  cbn [device regs]. rewrite mul32_2_small by lia.
  change (PIO_SCDR (wr SCDR ?v ?q)) with v.
  apply land_sub32_low14.
Qed.

(** The specification's example: a cutoff of 1000 gives the divider 15, with
    either constant. *)
Example PIO_SetDebounceFilter_1000 :
  PIO_SCDR (regs (device (run (PIO_SetDebounceFilter 1 1000) Pio_zero))) = 15
  /\ spec_divider 1000 = 15.
Proof. split; reflexivity. Qed.

(** C1. The divider written by [PIO_SetDebounceFilter] is computed from the
    constant 32678, not from the slow-clock frequency 32768: for the cutoff 1
    and every mask and register state the call stores 16338 to the divider
    register, where [((32768 / (2 * cutoff)) - 1) & 0x3FFF] is 16383. *)
Theorem PIO_SetDebounceFilter_cutoff_1_divider :
  forall (m : Z) (p : Pio),
    let o := run (PIO_SetDebounceFilter m 1) p in
    returned o = Some tt /\
    written SCDR (writes (device o)) = [16338] /\
    PIO_SCDR (regs (device o)) = 16338 /\
    spec_divider 1 = 16383.
Proof.
  intros m p o. subst o.
  rewrite PIO_SetDebounceFilter_returns by (vm_compute; discriminate).
  repeat split.
Qed.

(** ** [PIO_GetOutputDataStatus] *)

Lemma PIO_GetOutputDataStatus_run (m : Z) (s : Sim) :
  PIO_GetOutputDataStatus m s =
  Return (of_bool (truthy (Z.land (PIO_PSR (regs s)) m)
                   && truthy (Z.land (PIO_OSR (regs s)) m))) s.
Proof.
  step_pio. cbn [rd].
  destruct (truthy (Z.land (PIO_PSR (regs s)) m)); cbn [bind load ret rd andb];
    [destruct (truthy (Z.land (PIO_OSR (regs s)) m)) |]; reflexivity.
Qed.




(** ** [PIO_SetPeripheral] *)

(** The four accepted roles, store by store. *)
Lemma PIO_SetPeripheral_accepted (ty : EPioType) (m : Z) (p : Pio) :
  is_peripheral ty = true ->
  let clr := fun old => Z.land old (Z.land (not32 m) old) in
  let set := fun old => Z.lor m old in
  let v0 := match ty with
            | PIO_PERIPH_B | PIO_PERIPH_D => set (PIO_ABCDSR0 p)
            | _ => clr (PIO_ABCDSR0 p)
            end in
  let v1 := match ty with
            | PIO_PERIPH_C | PIO_PERIPH_D => set (PIO_ABCDSR1 p)
            | _ => clr (PIO_ABCDSR1 p)
            end in
  run (PIO_SetPeripheral ty m) p =
  Return tt
    (mkSim (wr PDR m (wr ABCDSR1 v1 (wr ABCDSR0 v0 (wr IDR m p))))
           [(IDR, m); (ABCDSR0, v0); (ABCDSR1, v1); (PDR, m)]).
Proof.
  intros Hty. destruct ty; try discriminate Hty; reflexivity.
Qed.

(** The rejected roles: one store, to the interrupt-disable register. *)
Lemma PIO_SetPeripheral_rejected (ty : EPioType) (m : Z) (p : Pio) :
  is_peripheral ty = false ->
  run (PIO_SetPeripheral ty m) p = Return tt (mkSim (wr IDR m p) [(IDR, m)]).
Proof.
  intros Hty. destruct ty; try discriminate Hty; reflexivity.
Qed.

Lemma testbit_clear_mask (m old i : Z) :
  0 <= i < 32 ->
  Z.testbit (Z.land old (Z.land (not32 m) old)) i =
  if Z.testbit m i then false else Z.testbit old i.
Proof.
  intros Hi. rewrite !Z.land_spec, testbit_not32 by exact Hi.
  destruct (Z.testbit m i), (Z.testbit old i); reflexivity.
Qed.

Lemma testbit_set_mask (m old i : Z) :
  Z.testbit (Z.lor m old) i = if Z.testbit m i then true else Z.testbit old i.
Proof. rewrite Z.lor_spec. destruct (Z.testbit m i); reflexivity. Qed.

(** C3. For a peripheral role with code (selector1, selector0) in the truth
    table, [PIO_SetPeripheral] leaves every bit of the two selector registers
    that the mask selects equal to the code and every other bit as it was,
    and its last store writes the mask to the pin-disable register. *)
Theorem PIO_SetPeripheral_selectors :
  forall (ty : EPioType) (m : Z) (p : Pio) (s1 s0 : bool),
    selector_code ty = Some (s1, s0) ->
    exists p' log,
      run (PIO_SetPeripheral ty m) p = Return tt (mkSim p' log) /\
      (forall i, 0 <= i < 32 ->
         Z.testbit (PIO_ABCDSR0 p') i =
           (if Z.testbit m i then s0 else Z.testbit (PIO_ABCDSR0 p) i) /\
         Z.testbit (PIO_ABCDSR1 p') i =
           (if Z.testbit m i then s1 else Z.testbit (PIO_ABCDSR1 p) i)) /\
      PIO_PDR p' = m /\
      written PDR log = [m] /\
      last log (IDR, 0) = (PDR, m).
Proof.
  intros ty m p s1 s0 Hcode.
  assert (Hty : is_peripheral ty = true)
    by (destruct ty; try discriminate Hcode; reflexivity).
  do 2 eexists. split; [apply (PIO_SetPeripheral_accepted ty m p Hty) |].
  split; [| repeat split].
  intros i Hi.
  destruct ty; try discriminate Hcode; injection Hcode as <- <-;
    cbn [PIO_ABCDSR0 PIO_ABCDSR1 wr rd Reg_eqb Reg_eq_dec];
    split;
    first [apply testbit_clear_mask; exact Hi | apply testbit_set_mask].
Qed.

Lemma PIO_SetPeripheral_selectors_witness :
  selector_code PIO_PERIPH_B = Some (false, true) /\
  exists p' log,
    run (PIO_SetPeripheral PIO_PERIPH_B 5)
        (wr ABCDSR0 10 (wr ABCDSR1 7 Pio_zero)) = Return tt (mkSim p' log) /\
    (forall i, 0 <= i < 32 ->
       Z.testbit (PIO_ABCDSR0 p') i =
         (if Z.testbit 5 i then true
          else Z.testbit (PIO_ABCDSR0 (wr ABCDSR0 10 (wr ABCDSR1 7 Pio_zero))) i)
       /\
       Z.testbit (PIO_ABCDSR1 p') i =
         (if Z.testbit 5 i then false
          else Z.testbit (PIO_ABCDSR1 (wr ABCDSR0 10 (wr ABCDSR1 7 Pio_zero))) i))
    /\
    PIO_PDR p' = 5 /\
    written PDR log = [5] /\
    last log (IDR, 0) = (PDR, 5).
Proof.
  split; [reflexivity |].
  exact (PIO_SetPeripheral_selectors PIO_PERIPH_B 5
           (wr ABCDSR0 10 (wr ABCDSR1 7 Pio_zero)) false true eq_refl).
Defined.

(** C5. For each of the roles [PIO_INPUT], [PIO_OUTPUT_0], [PIO_OUTPUT_1] and
    [PIO_NOT_A_PIN], [PIO_SetPeripheral] issues exactly one store, of the mask
    to the interrupt-disable register, and returns; every other register,
    the two selectors and the pin-disable register among them, is as
    before. *)
Theorem PIO_SetPeripheral_rejected_frame :
  forall (ty : EPioType) (m : Z) (p : Pio),
    In ty [PIO_INPUT; PIO_OUTPUT_0; PIO_OUTPUT_1; PIO_NOT_A_PIN] ->
    exists p',
      run (PIO_SetPeripheral ty m) p = Return tt (mkSim p' [(IDR, m)]) /\
      PIO_IDR p' = m /\
      (forall r, r <> IDR -> rd r p' = rd r p) /\
      PIO_ABCDSR0 p' = PIO_ABCDSR0 p /\
      PIO_ABCDSR1 p' = PIO_ABCDSR1 p /\
      PIO_PDR p' = PIO_PDR p.
Proof.
  intros ty m p Hin.
  assert (Hty : is_peripheral ty = false).
  { cbn [In] in Hin.
    destruct Hin as [<- | [<- | [<- | [<- | []]]]]; reflexivity. }
  exists (wr IDR m p). split; [apply PIO_SetPeripheral_rejected, Hty |].
  split; [reflexivity |].
  split; [| repeat split].
  intros r Hr. apply rd_wr_other. congruence.
Qed.

Lemma PIO_SetPeripheral_rejected_frame_witness :
  In PIO_OUTPUT_1 [PIO_INPUT; PIO_OUTPUT_0; PIO_OUTPUT_1; PIO_NOT_A_PIN] /\
  exists p',
    run (PIO_SetPeripheral PIO_OUTPUT_1 6) (wr ABCDSR0 10 (wr PDR 1 Pio_zero))
      = Return tt (mkSim p' [(IDR, 6)]) /\
    PIO_IDR p' = 6 /\
    (forall r, r <> IDR ->
       rd r p' = rd r (wr ABCDSR0 10 (wr PDR 1 Pio_zero))) /\
    PIO_ABCDSR0 p' = PIO_ABCDSR0 (wr ABCDSR0 10 (wr PDR 1 Pio_zero)) /\
    PIO_ABCDSR1 p' = PIO_ABCDSR1 (wr ABCDSR0 10 (wr PDR 1 Pio_zero)) /\
    PIO_PDR p' = PIO_PDR (wr ABCDSR0 10 (wr PDR 1 Pio_zero)).
Proof.
  assert (Hin : In PIO_OUTPUT_1
                  [PIO_INPUT; PIO_OUTPUT_0; PIO_OUTPUT_1; PIO_NOT_A_PIN])
    by (simpl; auto).
  split; [exact Hin |].
  exact (PIO_SetPeripheral_rejected_frame PIO_OUTPUT_1 6
           (wr ABCDSR0 10 (wr PDR 1 Pio_zero)) Hin).
Defined.

(** ** [PIO_Configure] *)

Section ConfigureFacts.

Variables PULLUP DEGLITCH OPENDRAIN DEBOUNCE : Z.

Lemma PIO_PullUp_run (m e : Z) (s : Sim) :
  PIO_PullUp m e s =
  Return tt (mkSim (wr (if truthy e then PUER else PUDR) m (regs s))
                   (writes s ++ [(if truthy e then PUER else PUDR, m)])).
Proof. unfold PIO_PullUp. destruct (truthy e); reflexivity. Qed.

(** A peripheral role: [PIO_SetPeripheral], the interrupt disable once more,
    then the pull-up store chosen by the [PIO_PULLUP] bit. *)
Lemma PIO_Configure_peripheral (ty : EPioType) (m a : Z) (s : Sim) :
  is_peripheral ty = true ->
  PIO_Configure PULLUP DEGLITCH OPENDRAIN DEBOUNCE ty m a s =
  (PIO_SetPeripheral ty m ;;
   PIO_DisableInterrupt m ;;
   PIO_PullUp m (Z.land a PULLUP) ;;
   ret 1) s.
Proof.
  intros Hty. unfold PIO_Configure, PIO_PullUp.
  destruct ty; try discriminate Hty;
    destruct (truthy (Z.land a PULLUP)); reflexivity.
Qed.

Lemma PIO_SetInput_total (m a : Z) (s : Sim) :
  exists s', PIO_SetInput PULLUP DEGLITCH DEBOUNCE m a s = Return tt s'.
Proof.
  step_pio.
  destruct (truthy (Z.land a PULLUP)); cbn [bind store regs writes];
    destruct (truthy (Z.land a (Z.lor DEGLITCH DEBOUNCE)));
    cbn [bind store regs writes];
    destruct (truthy (Z.land a DEGLITCH)); cbn [bind store ret regs writes];
    try destruct (truthy (Z.land a DEBOUNCE));
    cbn [bind store ret regs writes]; eexists; reflexivity.
Qed.

Lemma PIO_SetOutput_total (m d md pu : Z) (s : Sim) :
  exists s', PIO_SetOutput m d md pu s = Return tt s'.
Proof.
  step_pio.
  destruct (truthy pu); cbn [bind store regs writes];
    destruct (truthy md); cbn [bind store regs writes];
    destruct (truthy d); cbn [bind store regs writes];
    eexists; reflexivity.
Qed.

(** The result of [PIO_Configure]: 0 for [PIO_NOT_A_PIN], 1 for every other
    role, and never a fault. *)
Lemma PIO_Configure_result (ty : EPioType) (m a : Z) (s : Sim) :
  exists s', PIO_Configure PULLUP DEGLITCH OPENDRAIN DEBOUNCE ty m a s = Return (of_bool (is_configurable ty)) s'.
Proof.
  destruct ty.
  - eexists; reflexivity.
  - unfold PIO_Configure, PIO_PullUp.
    destruct (truthy (Z.land a PULLUP)); eexists; reflexivity.
  - unfold PIO_Configure, PIO_PullUp.
    destruct (truthy (Z.land a PULLUP)); eexists; reflexivity.
  - unfold PIO_Configure, PIO_PullUp.
    destruct (truthy (Z.land a PULLUP)); eexists; reflexivity.
  - unfold PIO_Configure, PIO_PullUp.
    destruct (truthy (Z.land a PULLUP)); eexists; reflexivity.
  - destruct (PIO_SetInput_total m a s) as [s' Hs'].
    exists s'. unfold PIO_Configure, bind.
    rewrite Hs'. reflexivity.
  - destruct (PIO_SetOutput_total m (of_bool (EPioType_eqb PIO_OUTPUT_0 PIO_OUTPUT_1))
                (of_bool (truthy (Z.land a OPENDRAIN)))
                (of_bool (truthy (Z.land a PULLUP))) s) as [s' Hs'].
    exists s'. unfold PIO_Configure, bind.
    rewrite Hs'. reflexivity.
  - destruct (PIO_SetOutput_total m (of_bool (EPioType_eqb PIO_OUTPUT_1 PIO_OUTPUT_1))
                (of_bool (truthy (Z.land a OPENDRAIN)))
                (of_bool (truthy (Z.land a PULLUP))) s) as [s' Hs'].
    exists s'. unfold PIO_Configure, bind.
    rewrite Hs'. reflexivity.
Qed.

End ConfigureFacts.

(** C4, as stated, fails for [PIO_SetPeripheral]: the function is [void], so
    the call on the rejected role [PIO_INPUT] and the call on the accepted
    role [PIO_PERIPH_A] return the same (empty) result and no reading of it
    tells them apart. *)
Lemma PIO_SetPeripheral_no_failure_indicator :
  ~ signals_failure (run (PIO_SetPeripheral PIO_INPUT 1) Pio_zero)
                    (run (PIO_SetPeripheral PIO_PERIPH_A 1) Pio_zero).
Proof.
  intros [is_failure [[a [_ Ha]] [b [_ Hb]]]].
  destruct a, b. congruence.
Qed.

(** C4, amended. [PIO_Configure] returns 0 for a role outside the peripheral,
    input and output roles and 1 for those, never faulting, so its result
    signals the rejection. [PIO_SetPeripheral] returns no failure indicator:
    it is [void], so for every role, accepted or not, it returns normally,
    without a fault, with the same empty result, and no reading of that
    result tells a rejected call from any other call. *)
Theorem invalid_role_results :
  forall (PULLUP DEGLITCH OPENDRAIN DEBOUNCE : Z)
         (ty : EPioType) (m a : Z) (p : Pio),
    returned (run (PIO_Configure PULLUP DEGLITCH OPENDRAIN DEBOUNCE ty m a) p)
      = Some (of_bool (is_configurable ty)) /\
    signals_failure
      (run (PIO_Configure PULLUP DEGLITCH OPENDRAIN DEBOUNCE
              PIO_NOT_A_PIN m a) p)
      (run (PIO_Configure PULLUP DEGLITCH OPENDRAIN DEBOUNCE
              PIO_INPUT m a) p) /\
    returned (run (PIO_SetPeripheral ty m) p) = Some tt /\
    (forall (ty' : EPioType) (m' : Z) (p' : Pio),
       ~ signals_failure (run (PIO_SetPeripheral ty m) p)
                         (run (PIO_SetPeripheral ty' m') p')).
Proof.
  intros PULLUP DEGLITCH OPENDRAIN DEBOUNCE ty m a p.
  assert (Hres : forall t,
             returned (run (PIO_Configure PULLUP DEGLITCH OPENDRAIN DEBOUNCE
                              t m a) p)
             = Some (of_bool (is_configurable t))).
  { intros t. unfold run.
    destruct (PIO_Configure_result PULLUP DEGLITCH OPENDRAIN DEBOUNCE
                t m a (mkSim p [])) as [s' ->].
    reflexivity. }
  split; [apply Hres |].
  split.
  - exists (fun v => v =? 0). split; eexists; (split; [apply Hres |]);
      reflexivity.
  - split; [destruct ty; reflexivity |].
    intros ty' m' p' [is_failure [[u [_ Hu]] [v [_ Hv]]]].
    destruct u, v. congruence.
Qed.

(** C6. [PIO_Configure] on [PIO_NOT_A_PIN] returns 0, issues no store and
    leaves the register block as it was, for every mask and attribute word. *)
Theorem PIO_Configure_not_a_pin :
  forall (PULLUP DEGLITCH OPENDRAIN DEBOUNCE : Z) (m a : Z) (p : Pio),
    run (PIO_Configure PULLUP DEGLITCH OPENDRAIN DEBOUNCE PIO_NOT_A_PIN m a) p
    = Return 0 (mkSim p []).
Proof. reflexivity. Qed.

(** ** [PIO_SetInput] *)

(** C7. [PIO_SetInput] stores the mask to the deglitch-select register
    [PIO_IFSCDR] exactly when the deglitch attribute is set, whatever the
    debounce attribute; it stores the mask to the debounce-select register
    [PIO_IFSCER] exactly when the debounce attribute is set and the deglitch
    attribute is clear; it never stores to the divider [PIO_SCDR], whose
    content stays as it was. *)
Theorem PIO_SetInput_filter_selection :
  forall (PULLUP DEGLITCH DEBOUNCE : Z) (m a : Z) (p : Pio),
    let o := run (PIO_SetInput PULLUP DEGLITCH DEBOUNCE m a) p in
    let deglitch := truthy (Z.land a DEGLITCH) in
    let debounce := truthy (Z.land a DEBOUNCE) in
    returned o = Some tt /\
    written IFSCDR (writes (device o)) = (if deglitch then [m] else []) /\
    written IFSCER (writes (device o))
      = (if negb deglitch && debounce then [m] else []) /\
    written SCDR (writes (device o)) = [] /\
    PIO_SCDR (regs (device o)) = PIO_SCDR p.
Proof.
  intros PULLUP DEGLITCH DEBOUNCE m a p o deglitch debounce.
  subst o deglitch debounce. step_pio.
  destruct (truthy (Z.land a PULLUP));
    destruct (truthy (Z.land a (Z.lor DEGLITCH DEBOUNCE)));
    destruct (truthy (Z.land a DEGLITCH));
    destruct (truthy (Z.land a DEBOUNCE));
    repeat split.
Qed.

(** ** The division fault of [PIO_SetDebounceFilter] *)

(** C8, as stated, fails: the cutoff [2^31] is positive, yet its doubling wraps
    to 0 in 32-bit arithmetic and the division faults. *)
Lemma PIO_SetDebounceFilter_faults_at_2_31 :
  uint32 (2 ^ 31) /\ 0 < 2 ^ 31 /\
  faults (run (PIO_SetDebounceFilter 1 (2 ^ 31)) Pio_zero) = true.
Proof. repeat split; try reflexivity. discriminate. Qed.

(** C8, amended. The divider computation divides by [2 * cutoff] taken modulo
    [2^32]: the division faults for the cutoff 0 and for the cutoff [2^31],
    whose doubling wraps to 0, and for every other 32-bit cutoff the fault is
    unreachable and the call returns, whatever the mask and the register
    state. When it faults the divider register has not been stored to. *)
Theorem PIO_SetDebounceFilter_fault_iff :
  forall (m c : Z) (p : Pio),
    uint32 c ->
    let o := run (PIO_SetDebounceFilter m c) p in
    let zero_divisor := (c =? 0) || (c =? 2 ^ 31) in
    faults o = zero_divisor /\
    returned o = (if zero_divisor then None else Some tt) /\
    written SCDR (writes (device o)) =
      (if zero_divisor then []
       else [Z.land (sub32 (32678 / mul32 2 c) 1) 0x3FFF]).
Proof.
  intros m c p Hc o zero_divisor. subst o zero_divisor.
  destruct (Z.eq_dec (mul32 2 c) 0) as [Hz | Hnz].
  - rewrite PIO_SetDebounceFilter_faults by exact Hz.
    destruct (proj1 (mul32_2_zero c Hc) Hz) as [-> | ->]; repeat split.
  - rewrite PIO_SetDebounceFilter_returns by exact Hnz.
    assert (Hb : ((c =? 0) || (c =? 2 ^ 31))%bool = false).
    { apply orb_false_iff. split; apply Z.eqb_neq; intros ->;
        apply Hnz; reflexivity. }
    rewrite Hb. repeat split.
Qed.

Lemma PIO_SetDebounceFilter_fault_iff_witness :
  uint32 1000 /\
  let o := run (PIO_SetDebounceFilter 4 1000) Pio_zero in
  let zero_divisor := (1000 =? 0) || (1000 =? 2 ^ 31) in
  faults o = zero_divisor /\
  returned o = (if zero_divisor then None else Some tt) /\
  written SCDR (writes (device o)) =
    (if zero_divisor then []
     else [Z.land (sub32 (32678 / mul32 2 1000) 1) 0x3FFF]).
Proof.
  assert (H : uint32 1000) by (unfold uint32; lia).
  split; [exact H |].
  exact (PIO_SetDebounceFilter_fault_iff 4 1000 Pio_zero H).
Defined.

(** ** The reading functions *)

(** C9. [PIO_Get] and [PIO_GetOutputDataStatus] return a truth value and leave
    the device exactly as they found it: no register changes and no store is
    issued, for every role, mask and register state. *)
Theorem PIO_Get_GetOutputDataStatus_read_only :
  forall (ty : EPioType) (m : Z) (s : Sim),
    (exists v, PIO_Get ty m s = Return v s /\ (v = 0 \/ v = 1)) /\
    (exists v, PIO_GetOutputDataStatus m s = Return v s /\ (v = 0 \/ v = 1)).
Proof.
  intros ty m s. split.
  - step_pio.
    destruct (EPioType_eqb ty PIO_OUTPUT_0 || EPioType_eqb ty PIO_OUTPUT_1);
      cbn [bind load];
      match goal with
      | |- context [?x =? 0] => destruct (x =? 0)
      end; eexists; split; try reflexivity; auto.
  - rewrite PIO_GetOutputDataStatus_run.
    eexists; split; [reflexivity |].
    destruct (_ && _); cbn [of_bool]; auto.
Qed.

(** ** The attributes of a peripheral configuration *)

(** C10. For a peripheral role, two attribute words that agree on the pull-up
    attribute make [PIO_Configure] end in the same device, with the same
    stores and the same result: the open-drain, deglitch and debounce
    attributes are not looked at. *)
Theorem PIO_Configure_peripheral_attributes :
  forall (PULLUP DEGLITCH OPENDRAIN DEBOUNCE : Z)
         (ty : EPioType) (m a1 a2 : Z) (s : Sim),
    is_peripheral ty = true ->
    truthy (Z.land a1 PULLUP) = truthy (Z.land a2 PULLUP) ->
    PIO_Configure PULLUP DEGLITCH OPENDRAIN DEBOUNCE ty m a1 s =
    PIO_Configure PULLUP DEGLITCH OPENDRAIN DEBOUNCE ty m a2 s.
Proof.
  intros PULLUP DEGLITCH OPENDRAIN DEBOUNCE ty m a1 a2 s Hty Hpull.
  rewrite !PIO_Configure_peripheral by exact Hty.
  unfold bind.
  destruct (PIO_SetPeripheral ty m s) as [[] s1 | s1]; [| reflexivity].
  destruct (PIO_DisableInterrupt m s1) as [[] s2 | s2]; [| reflexivity].
  rewrite !PIO_PullUp_run, Hpull. reflexivity.
Qed.

Lemma PIO_Configure_peripheral_attributes_witness :
  is_peripheral PIO_PERIPH_C = true /\
  truthy (Z.land 1 1) = truthy (Z.land 15 1) /\
  PIO_Configure 1 2 4 8 PIO_PERIPH_C 3 1 (mkSim Pio_zero []) =
  PIO_Configure 1 2 4 8 PIO_PERIPH_C 3 15 (mkSim Pio_zero []).
Proof.
  split; [reflexivity |]. split; [reflexivity |].
  exact (PIO_Configure_peripheral_attributes 1 2 4 8 PIO_PERIPH_C 3 1 15
           (mkSim Pio_zero []) eq_refl eq_refl).
Defined.

(** * Further properties of the driver *)

(** ** Words and masks *)

Lemma truthy_land_lor (x a b : Z) :
  truthy (Z.land x (Z.lor a b)) = truthy (Z.land x a) || truthy (Z.land x b).
Proof.
  rewrite Z.land_lor_distr_r. unfold truthy.
  destruct (Z.eqb_spec (Z.lor (Z.land x a) (Z.land x b)) 0) as [Hz | Hnz].
  - apply Z.lor_eq_0_iff in Hz as [-> ->]. reflexivity.
  - destruct (Z.eqb_spec (Z.land x a) 0) as [Ha | _]; [| reflexivity].
    destruct (Z.eqb_spec (Z.land x b) 0) as [Hb | _]; [| reflexivity].
    elim Hnz. rewrite Ha, Hb. reflexivity.
Qed.

Lemma truthy_land_0 (x : Z) : truthy (Z.land x 0) = false.
Proof. rewrite Z.land_0_r. reflexivity. Qed.

(** A set bit of [x] inside [m1] is still inside any mask that contains
    [m1]. *)
Lemma truthy_land_sub (x m1 m2 : Z) :
  Z.land m1 m2 = m1 -> truthy (Z.land x m1) = true ->
  truthy (Z.land x m2) = true.
Proof.
  intros Hsub H1. apply truthy_true. apply truthy_true in H1.
  intros Hz. apply H1.
  rewrite <- Hsub, (Z.land_comm m1 m2), Z.land_assoc, Hz. reflexivity.
Qed.

Lemma of_bool_orb (a b : bool) :
  of_bool (a || b) = Z.lor (of_bool a) (of_bool b).
Proof. destruct a, b; reflexivity. Qed.

(** ** [PIO_Get] *)

Lemma PIO_Get_run (ty : EPioType) (m : Z) (s : Sim) :
  PIO_Get ty m s =
  Return (of_bool (truthy (Z.land (rd (level_register ty) (regs s)) m))) s.
Proof.
  unfold PIO_Get, bind, truthy.
  destruct ty;
    change (rd (level_register _) (regs s)) with (rd PDSR (regs s)) ||
    change (rd (level_register _) (regs s)) with (rd ODSR (regs s));
    match goal with
    | |- context [Z.land ?x m =? 0] =>
        destruct (Z.land x m =? 0) eqn:Hz
    end;
    cbv [EPioType_eqb EPioType_eq_dec EPioType_rec EPioType_rect orb load];
    rewrite Hz; reflexivity.
Qed.

(** X1. [PIO_Get] answers 1 exactly when some pin of the mask has its bit set
    in the register of the role (output data status for the output roles,
    pin data status otherwise) and 0 exactly when none has. *)
Theorem PIO_Get_any_pin :
  forall (ty : EPioType) (m : Z) (p : Pio),
    uint32 m ->
    exists v,
      run (PIO_Get ty m) p = Return v (mkSim p []) /\
      (v = 1 <->
       exists i, in_mask m i /\
                 Z.testbit (rd (level_register ty) p) i = true) /\
      (v = 0 <->
       forall i, in_mask m i ->
                 Z.testbit (rd (level_register ty) p) i = false).
Proof.
  intros ty m p Hm. unfold run. rewrite PIO_Get_run. cbn [regs].
  eexists; split; [reflexivity |].
  pose proof (truthy_land_mask (rd (level_register ty) p) m Hm) as Hbit.
  destruct (truthy (Z.land (rd (level_register ty) p) m)); cbn [of_bool].
  - destruct (proj1 Hbit eq_refl) as [i [Hi Hx]].
    split; split.
    + intros _. exists i. auto.
    + reflexivity.
    + discriminate.
    + intros Hall. rewrite (Hall i Hi) in Hx. discriminate.
  - split; split.
    + discriminate.
    + intros Hex. apply Hbit in Hex. discriminate.
    + intros _ i Hi.
      destruct (Z.testbit (rd (level_register ty) p) i) eqn:Hx;
        [| reflexivity].
      assert (Hf : false = true) by (apply Hbit; exists i; auto).
      discriminate.
    + reflexivity.
Qed.

Lemma PIO_Get_any_pin_witness :
  uint32 6 /\
  exists v,
    run (PIO_Get PIO_OUTPUT_1 6) (wr ODSR 4 (wr PDSR 1 Pio_zero))
      = Return v (mkSim (wr ODSR 4 (wr PDSR 1 Pio_zero)) []) /\
    (v = 1 <->
     exists i, in_mask 6 i /\
       Z.testbit (rd (level_register PIO_OUTPUT_1)
                     (wr ODSR 4 (wr PDSR 1 Pio_zero))) i = true) /\
    (v = 0 <->
     forall i, in_mask 6 i ->
       Z.testbit (rd (level_register PIO_OUTPUT_1)
                     (wr ODSR 4 (wr PDSR 1 Pio_zero))) i = false).
Proof.
  assert (H : uint32 6) by (unfold uint32; lia).
  split; [exact H |].
  exact (PIO_Get_any_pin PIO_OUTPUT_1 6 (wr ODSR 4 (wr PDSR 1 Pio_zero)) H).
Defined.

(** X2. [PIO_Get] on the union of two masks is the bitwise or of its answers
    on each of them, and on the empty mask it answers 0, for every role and
    register state. *)
Theorem PIO_Get_union :
  forall (ty : EPioType) (m1 m2 : Z) (s : Sim),
    exists v1 v2,
      returned (PIO_Get ty m1 s) = Some v1 /\
      returned (PIO_Get ty m2 s) = Some v2 /\
      returned (PIO_Get ty (Z.lor m1 m2) s) = Some (Z.lor v1 v2) /\
      returned (PIO_Get ty 0 s) = Some 0.
Proof.
  intros ty m1 m2 s. rewrite !PIO_Get_run. cbn [returned].
  do 2 eexists. split; [reflexivity |]. split; [reflexivity |].
  rewrite truthy_land_lor, of_bool_orb, truthy_land_0. split; reflexivity.
Qed.

(** X3. [PIO_GetOutputDataStatus] is monotone in the mask: an answer of 1 on a
    mask stays 1 on every mask that contains it; and on the empty mask the
    answer is 0 in every register state. *)
Theorem PIO_GetOutputDataStatus_monotone :
  forall (m1 m2 : Z) (s : Sim),
    (Z.land m1 m2 = m1 ->
     returned (PIO_GetOutputDataStatus m1 s) = Some 1 ->
     returned (PIO_GetOutputDataStatus m2 s) = Some 1) /\
    returned (PIO_GetOutputDataStatus 0 s) = Some 0.
Proof.
  intros m1 m2 s. rewrite !PIO_GetOutputDataStatus_run. cbn [returned].
  split.
  - intros Hsub.
    destruct (truthy (Z.land (PIO_PSR (regs s)) m1)) eqn:Hp;
      [| discriminate].
    destruct (truthy (Z.land (PIO_OSR (regs s)) m1)) eqn:Ho;
      [| discriminate].
    intros _.
    rewrite (truthy_land_sub _ m1 m2 Hsub Hp),
            (truthy_land_sub _ m1 m2 Hsub Ho).
    reflexivity.
  - rewrite !truthy_land_0. reflexivity.
Qed.

Lemma PIO_GetOutputDataStatus_monotone_witness :
  (Z.land 2 6 = 2 /\
   returned (PIO_GetOutputDataStatus 2
               (mkSim (wr PSR 3 (wr OSR 2 Pio_zero)) [])) = Some 1 /\
   returned (PIO_GetOutputDataStatus 6
               (mkSim (wr PSR 3 (wr OSR 2 Pio_zero)) [])) = Some 1) /\
  returned (PIO_GetOutputDataStatus 0
              (mkSim (wr PSR 3 (wr OSR 2 Pio_zero)) [])) = Some 0 /\
  returned (PIO_GetOutputDataStatus 0 (mkSim Pio_zero [])) = Some 0.
Proof.
  split; [| split].
  - split; [reflexivity |]. split; [reflexivity |].
    exact (proj1 (PIO_GetOutputDataStatus_monotone 2 6
                    (mkSim (wr PSR 3 (wr OSR 2 Pio_zero)) []))
             eq_refl eq_refl).
  - exact (proj2 (PIO_GetOutputDataStatus_monotone 2 6
                    (mkSim (wr PSR 3 (wr OSR 2 Pio_zero)) []))).
  - exact (proj2 (PIO_GetOutputDataStatus_monotone 0 0 (mkSim Pio_zero []))).
Defined.

(** ** The divider of [PIO_SetDebounceFilter], range by range *)

Lemma land_low14 (x : Z) : 0 <= x < 2 ^ 14 -> Z.land x 0x3FFF = x.
Proof.
  intros Hx. change 0x3FFF with (Z.ones 14).
  rewrite Z.land_ones by lia. apply Z.mod_small. exact Hx.
Qed.

Lemma divider_quotient_bounds (c : Z) :
  1 <= c <= 16339 -> 1 <= 32678 / (2 * c) <= 16339.
Proof.
  intros Hc. split.
  - apply Z.div_le_lower_bound; lia.
  - apply Z.div_le_upper_bound; lia.
Qed.

(** X4. For a cutoff from 1 to 16339 the call returns and the divider it
    stores is exactly [32678 / (2 * cutoff) - 1], a value from 0 to 16338:
    neither the 32-bit wrap nor the 14-bit mask changes it. *)
Theorem PIO_SetDebounceFilter_divider_exact :
  forall (m c : Z) (p : Pio),
    1 <= c <= 16339 ->
    let o := run (PIO_SetDebounceFilter m c) p in
    returned o = Some tt /\
    written SCDR (writes (device o)) = [32678 / (2 * c) - 1] /\
    PIO_SCDR (regs (device o)) = 32678 / (2 * c) - 1 /\
    0 <= 32678 / (2 * c) - 1 <= 16338.
Proof.
  intros m c p Hc o. subst o.
  pose proof (divider_quotient_bounds c Hc) as Hq.
  assert (Hsmall : 0 <= c < 2 ^ 31) by lia.
  rewrite PIO_SetDebounceFilter_returns
    by (rewrite mul32_2_small by exact Hsmall; lia).
  rewrite mul32_2_small by exact Hsmall.
  rewrite land_sub32_low14, land_low14 by lia.
  repeat split; lia.
Qed.

Lemma PIO_SetDebounceFilter_divider_exact_witness :
  1 <= 50 <= 16339 /\
  let o := run (PIO_SetDebounceFilter 8 50) Pio_zero in
  returned o = Some tt /\
  written SCDR (writes (device o)) = [32678 / (2 * 50) - 1] /\
  PIO_SCDR (regs (device o)) = 32678 / (2 * 50) - 1 /\
  0 <= 32678 / (2 * 50) - 1 <= 16338.
Proof.
  assert (H : 1 <= 50 <= 16339) by lia.
  split; [exact H |].
  exact (PIO_SetDebounceFilter_divider_exact 8 50 Pio_zero H).
Defined.

(** X5. For a cutoff from 16340 up to [2^31 - 1] the quotient is 0, its
    decrement wraps, and the divider stored is the largest one, [0x3FFF]. *)
Theorem PIO_SetDebounceFilter_divider_underflow :
  forall (m c : Z) (p : Pio),
    16340 <= c < 2 ^ 31 ->
    let o := run (PIO_SetDebounceFilter m c) p in
    returned o = Some tt /\
    written SCDR (writes (device o)) = [0x3FFF] /\
    PIO_SCDR (regs (device o)) = 0x3FFF.
Proof.
  intros m c p Hc o. subst o.
  assert (Hsmall : 0 <= c < 2 ^ 31) by lia.
  rewrite PIO_SetDebounceFilter_returns
    by (rewrite mul32_2_small by exact Hsmall; lia).
  rewrite mul32_2_small by exact Hsmall.
  rewrite (Z.div_small 32678 (2 * c)) by lia.
  repeat split.
Qed.

Lemma PIO_SetDebounceFilter_divider_underflow_witness :
  16340 <= 20000 < 2 ^ 31 /\
  let o := run (PIO_SetDebounceFilter 8 20000) Pio_zero in
  returned o = Some tt /\
  written SCDR (writes (device o)) = [0x3FFF] /\
  PIO_SCDR (regs (device o)) = 0x3FFF.
Proof.
  assert (H : 16340 <= 20000 < 2 ^ 31) by lia.
  split; [exact H |].
  exact (PIO_SetDebounceFilter_divider_underflow 8 20000 Pio_zero H).
Defined.

Lemma mul32_2_mod (c : Z) : mul32 2 (c mod 2 ^ 31) = mul32 2 c.
Proof.
  unfold mul32, wrap32.
  change (2 ^ 32) with (2 * 2 ^ 31).
  rewrite !Zmult_mod_distr_l. rewrite Z.mod_mod by lia. reflexivity.
Qed.

(** X6. The top bit of the cutoff is ignored: a cutoff and its remainder
    modulo [2^31] give the same outcome, fault or stores alike, since the
    doubling is taken modulo [2^32]. *)
Theorem PIO_SetDebounceFilter_top_bit_ignored :
  forall (m c : Z) (s : Sim),
    PIO_SetDebounceFilter m (c mod 2 ^ 31) s = PIO_SetDebounceFilter m c s.
Proof.
  intros m c s. unfold PIO_SetDebounceFilter.
  rewrite mul32_2_mod. reflexivity.
Qed.

(** X7. A faulting call is not atomic: when the division faults, the store
    that selects debounce filtering on the mask has been issued already, and
    it is the only one. *)
Theorem PIO_SetDebounceFilter_fault_partial :
  forall (m c : Z) (p : Pio),
    faults (run (PIO_SetDebounceFilter m c) p) = true ->
    device (run (PIO_SetDebounceFilter m c) p)
      = mkSim (wr IFSCER m p) [(IFSCER, m)] /\
    PIO_IFSCER (regs (device (run (PIO_SetDebounceFilter m c) p))) = m /\
    PIO_SCDR (regs (device (run (PIO_SetDebounceFilter m c) p))) = PIO_SCDR p.
Proof.
  intros m c p.
  destruct (Z.eq_dec (mul32 2 c) 0) as [Hz | Hnz].
  - rewrite PIO_SetDebounceFilter_faults by exact Hz. repeat split.
  - rewrite PIO_SetDebounceFilter_returns by exact Hnz. discriminate.
Qed.

Lemma PIO_SetDebounceFilter_fault_partial_witness :
  faults (run (PIO_SetDebounceFilter 5 0) (wr SCDR 9 Pio_zero)) = true /\
  device (run (PIO_SetDebounceFilter 5 0) (wr SCDR 9 Pio_zero))
    = mkSim (wr IFSCER 5 (wr SCDR 9 Pio_zero)) [(IFSCER, 5)] /\
  PIO_IFSCER (regs (device (run (PIO_SetDebounceFilter 5 0)
                              (wr SCDR 9 Pio_zero)))) = 5 /\
  PIO_SCDR (regs (device (run (PIO_SetDebounceFilter 5 0)
                            (wr SCDR 9 Pio_zero))))
    = PIO_SCDR (wr SCDR 9 Pio_zero).
Proof.
  split; [reflexivity |].
  exact (PIO_SetDebounceFilter_fault_partial 5 0 (wr SCDR 9 Pio_zero) eq_refl).
Defined.

(** ** [PIO_Configure], store by store *)

(** Splits on every attribute test of the goal. *)
Ltac case_attributes :=
  repeat match goal with
         | |- context [truthy (Z.land ?a ?b)] =>
             destruct (truthy (Z.land a b))
         end.

(** X8. For every role it accepts, [PIO_Configure] begins with the store that
    disables the interrupts of the mask; that store is issued twice for a
    peripheral role (by [PIO_SetPeripheral] and by [PIO_Configure] itself) and
    once for the input and output roles. *)
Theorem PIO_Configure_disables_interrupts_first :
  forall (PULLUP DEGLITCH OPENDRAIN DEBOUNCE : Z)
         (ty : EPioType) (m a : Z) (p : Pio),
    let log := writes (device
      (run (PIO_Configure PULLUP DEGLITCH OPENDRAIN DEBOUNCE ty m a) p)) in
    hd_error log = (if is_configurable ty then Some (IDR, m) else None) /\
    written IDR log =
      (if is_peripheral ty then [m; m]
       else if is_configurable ty then [m] else []).
Proof.
  intros PULLUP DEGLITCH OPENDRAIN DEBOUNCE ty m a p log. subst log.
  destruct ty; step_pio; case_attributes; split; reflexivity.
Qed.

(** X9. [PIO_Configure] hands the pins to exactly one owner: for a peripheral
    role it stores the mask to the pin-disable register and never to the
    pin-enable register; for the input and output roles it stores the mask to
    the pin-enable register, as its last store, and never to the pin-disable
    register. *)
Theorem PIO_Configure_pin_owner :
  forall (PULLUP DEGLITCH OPENDRAIN DEBOUNCE : Z)
         (ty : EPioType) (m a : Z) (p : Pio),
    let log := writes (device
      (run (PIO_Configure PULLUP DEGLITCH OPENDRAIN DEBOUNCE ty m a) p)) in
    written PDR log = (if is_peripheral ty then [m] else []) /\
    written PER log =
      (if is_configurable ty && negb (is_peripheral ty) then [m] else []) /\
    (if is_configurable ty && negb (is_peripheral ty)
     then last log (IDR, 0) = (PER, m)
     else True).
Proof.
  intros PULLUP DEGLITCH OPENDRAIN DEBOUNCE ty m a p log. subst log.
  destruct ty; step_pio; case_attributes; repeat split.
Qed.

(** X10. Every accepted role honours the pull-up attribute: [PIO_Configure]
    stores the mask to the pull-up enable register when the attribute is set
    and to the pull-up disable register when it is clear, once, and never to
    the other one. *)
Theorem PIO_Configure_pull_up :
  forall (PULLUP DEGLITCH OPENDRAIN DEBOUNCE : Z)
         (ty : EPioType) (m a : Z) (p : Pio),
    let log := writes (device
      (run (PIO_Configure PULLUP DEGLITCH OPENDRAIN DEBOUNCE ty m a) p)) in
    let pull := truthy (Z.land a PULLUP) in
    written PUER log = (if is_configurable ty && pull then [m] else []) /\
    written PUDR log =
      (if is_configurable ty && negb pull then [m] else []).
Proof.
  intros PULLUP DEGLITCH OPENDRAIN DEBOUNCE ty m a p log pull.
  subst log pull.
  destruct ty; step_pio; case_attributes; split; reflexivity.
Qed.

(** X11. The direction of the pins: for an output role [PIO_Configure] stores
    the default level (set-output for [PIO_OUTPUT_1], clear-output for
    [PIO_OUTPUT_0]) and only then enables the output; for the input role it
    disables the output and stores no level; a peripheral role touches none
    of these registers. *)
Theorem PIO_Configure_direction :
  forall (PULLUP DEGLITCH OPENDRAIN DEBOUNCE : Z)
         (ty : EPioType) (m a : Z) (p : Pio),
    stores_to [SODR; CODR; OER; ODR]
      (writes (device
         (run (PIO_Configure PULLUP DEGLITCH OPENDRAIN DEBOUNCE ty m a) p)))
    = match ty with
      | PIO_OUTPUT_1 => [(SODR, m); (OER, m)]
      | PIO_OUTPUT_0 => [(CODR, m); (OER, m)]
      | PIO_INPUT => [(ODR, m)]
      | _ => []
      end.
Proof.
  intros PULLUP DEGLITCH OPENDRAIN DEBOUNCE ty m a p.
  destruct ty; step_pio; case_attributes; reflexivity.
Qed.

(** X12. The open-drain attribute is looked at for the output roles only:
    there [PIO_Configure] stores the mask to the multi-drive enable register
    when it is set and to the multi-drive disable register when it is clear;
    for every other role neither register is stored to. *)
Theorem PIO_Configure_open_drain :
  forall (PULLUP DEGLITCH OPENDRAIN DEBOUNCE : Z)
         (ty : EPioType) (m a : Z) (p : Pio),
    let log := writes (device
      (run (PIO_Configure PULLUP DEGLITCH OPENDRAIN DEBOUNCE ty m a) p)) in
    let drain := truthy (Z.land a OPENDRAIN) in
    written MDER log = (if is_output ty && drain then [m] else []) /\
    written MDDR log = (if is_output ty && negb drain then [m] else []).
Proof.
  intros PULLUP DEGLITCH OPENDRAIN DEBOUNCE ty m a p log drain.
  subst log drain.
  destruct ty; step_pio; case_attributes; split; reflexivity.
Qed.

(** ** What a configuration leaves alone *)

Lemma written_app (r : Reg) (l1 l2 : list (Reg * Z)) :
  written r (l1 ++ l2) = written r l1 ++ written r l2.
Proof. unfold written. rewrite filter_app, map_app. reflexivity. Qed.

(** X13. [PIO_Configure] stays inside the footprint of the role: a register
    outside it is neither stored to nor changed. The peripheral roles touch
    the interrupt-disable, selector, pin-disable and pull-up registers only;
    the input role adds the filter, output-disable and pin-enable registers;
    the output roles the multi-drive, level, output-enable and pin-enable
    registers; [PIO_NOT_A_PIN] touches nothing. *)
Theorem PIO_Configure_footprint :
  forall (PULLUP DEGLITCH OPENDRAIN DEBOUNCE : Z)
         (ty : EPioType) (m a : Z) (p : Pio) (r : Reg),
    mem_reg r (footprint ty) = false ->
    let o := run (PIO_Configure PULLUP DEGLITCH OPENDRAIN DEBOUNCE ty m a) p in
    written r (writes (device o)) = [] /\
    rd r (regs (device o)) = rd r p.
Proof.
  intros PULLUP DEGLITCH OPENDRAIN DEBOUNCE ty m a p r Hout o. subst o.
  destruct ty; step_pio; case_attributes;
    destruct r; try discriminate Hout; split; reflexivity.
Qed.

Lemma PIO_Configure_footprint_witness :
  mem_reg SCDR (footprint PIO_INPUT) = false /\
  let o := run (PIO_Configure 1 2 4 8 PIO_INPUT 3 10) (wr SCDR 7 Pio_zero) in
  written SCDR (writes (device o)) = [] /\
  rd SCDR (regs (device o)) = rd SCDR (wr SCDR 7 Pio_zero).
Proof.
  split; [reflexivity |].
  exact (PIO_Configure_footprint 1 2 4 8 PIO_INPUT 3 10 (wr SCDR 7 Pio_zero)
           SCDR eq_refl).
Defined.

(** On any device, a configuration leaves the four status registers as they
    are. *)
Lemma PIO_Configure_status_frame
    (PULLUP DEGLITCH OPENDRAIN DEBOUNCE : Z)
    (ty : EPioType) (m a : Z) (s : Sim) (r : Reg) :
  In r status_registers ->
  rd r (regs (device
     (PIO_Configure PULLUP DEGLITCH OPENDRAIN DEBOUNCE ty m a s)))
  = rd r (regs s).
Proof.
  intros Hin. cbn [status_registers In] in Hin.
  destruct Hin as [<- | [<- | [<- | [<- | []]]]];
    destruct ty; step_pio; case_attributes; reflexivity.
Qed.

Lemma level_register_status (ty : EPioType) :
  In (level_register ty) status_registers.
Proof. destruct ty; cbn; auto. Qed.

(** X14. Reading the pins after a configuration gives what reading them
    before gave: [PIO_Configure], whatever the role, mask and attributes,
    followed by [PIO_Get] or by [PIO_GetOutputDataStatus] returns the answer
    of the bare reading, because no configuration stores to a status
    register. *)
Theorem PIO_Configure_keeps_readings :
  forall (PULLUP DEGLITCH OPENDRAIN DEBOUNCE : Z)
         (ty : EPioType) (m a : Z) (ty' : EPioType) (m' : Z) (s : Sim),
    returned ((PIO_Configure PULLUP DEGLITCH OPENDRAIN DEBOUNCE ty m a ;;
               PIO_Get ty' m') s)
    = returned (PIO_Get ty' m' s) /\
    returned ((PIO_Configure PULLUP DEGLITCH OPENDRAIN DEBOUNCE ty m a ;;
               PIO_GetOutputDataStatus m') s)
    = returned (PIO_GetOutputDataStatus m' s).
Proof.
  intros PULLUP DEGLITCH OPENDRAIN DEBOUNCE ty m a ty' m' s.
  pose proof (fun r H => PIO_Configure_status_frame
                PULLUP DEGLITCH OPENDRAIN DEBOUNCE ty m a s r H) as Hframe.
  unfold bind.
  destruct (PIO_Configure_result PULLUP DEGLITCH OPENDRAIN DEBOUNCE
              ty m a s) as [s' Hs'].
  rewrite Hs' in *. cbn [device] in Hframe.
  rewrite !PIO_Get_run, !PIO_GetOutputDataStatus_run. cbn [returned].
  rewrite (Hframe _ (level_register_status ty')).
  change (PIO_PSR (regs s')) with (rd PSR (regs s')).
  change (PIO_OSR (regs s')) with (rd OSR (regs s')).
  rewrite (Hframe PSR), (Hframe OSR) by (cbn; auto).
  split; reflexivity.
Qed.

(** X15. No function of the driver that stores at all stores to a status
    register: after each of them, on any device, the pin-status,
    output-status, output-data-status and pin-data-status registers hold what
    they held and the log has no new entry for them. *)
Theorem status_registers_untouched :
  forall (PULLUP DEGLITCH DEBOUNCE : Z) (ty : EPioType)
         (m a c e d md pu : Z) (s : Sim) (r : Reg),
    In r status_registers ->
    Forall (fun call : M unit =>
              rd r (regs (device (call s))) = rd r (regs s) /\
              written r (writes (device (call s))) = written r (writes s))
      [PIO_DisableInterrupt m; PIO_PullUp m e; PIO_SetDebounceFilter m c;
       PIO_Set m; PIO_Clear m; PIO_SetPeripheral ty m;
       PIO_SetInput PULLUP DEGLITCH DEBOUNCE m a; PIO_SetOutput m d md pu].
Proof.
  intros PULLUP DEGLITCH DEBOUNCE ty m a c e d md pu s r Hin.
  cbn [status_registers In] in Hin.
  repeat apply Forall_cons; try apply Forall_nil;
    destruct Hin as [<- | [<- | [<- | [<- | []]]]];
    try destruct ty; step_pio; unfold udiv32;
    repeat match goal with
           | |- context [truthy ?x] => destruct (truthy x)
           | |- context [?x =? 0] => destruct (x =? 0)
           end;
    cbn [bind store ret load device regs writes];
    rewrite ?written_app; cbn [written filter map]; rewrite ?app_nil_r;
    split; reflexivity.
Qed.

Lemma status_registers_untouched_witness :
  In ODSR status_registers /\
  Forall (fun call : M unit =>
            rd ODSR (regs (device (call (mkSim (wr ODSR 5 Pio_zero) []))))
              = rd ODSR (regs (mkSim (wr ODSR 5 Pio_zero) [])) /\
            written ODSR
              (writes (device (call (mkSim (wr ODSR 5 Pio_zero) []))))
              = written ODSR (writes (mkSim (wr ODSR 5 Pio_zero) [])))
    [PIO_DisableInterrupt 3; PIO_PullUp 3 1; PIO_SetDebounceFilter 3 0;
     PIO_Set 3; PIO_Clear 3; PIO_SetPeripheral PIO_PERIPH_D 3;
     PIO_SetInput 1 2 8 3 2; PIO_SetOutput 3 1 0 1].
Proof.
  assert (H : In ODSR status_registers) by (cbn; auto).
  split; [exact H |].
  exact (status_registers_untouched 1 2 8 PIO_PERIPH_D 3 2 0 1 1 0 1
           (mkSim (wr ODSR 5 Pio_zero) []) ODSR H).
Defined.

(** ** The attributes each role looks at *)

(** X16. For an output role the outcome of [PIO_Configure] depends on the
    attribute word only through the pull-up and the open-drain attribute:
    two words that agree on both give the same result, registers and
    stores. *)
Theorem PIO_Configure_output_attributes :
  forall (PULLUP DEGLITCH OPENDRAIN DEBOUNCE : Z)
         (ty : EPioType) (m a1 a2 : Z) (s : Sim),
    is_output ty = true ->
    truthy (Z.land a1 PULLUP) = truthy (Z.land a2 PULLUP) ->
    truthy (Z.land a1 OPENDRAIN) = truthy (Z.land a2 OPENDRAIN) ->
    PIO_Configure PULLUP DEGLITCH OPENDRAIN DEBOUNCE ty m a1 s =
    PIO_Configure PULLUP DEGLITCH OPENDRAIN DEBOUNCE ty m a2 s.
Proof.
  intros PULLUP DEGLITCH OPENDRAIN DEBOUNCE ty m a1 a2 s Hty Hpull Hdrain.
  destruct ty; try discriminate Hty;
    unfold PIO_Configure; rewrite Hpull, Hdrain; reflexivity.
Qed.

Lemma PIO_Configure_output_attributes_witness :
  is_output PIO_OUTPUT_1 = true /\
  truthy (Z.land 5 1) = truthy (Z.land 15 1) /\
  truthy (Z.land 5 4) = truthy (Z.land 15 4) /\
  PIO_Configure 1 2 4 8 PIO_OUTPUT_1 3 5 (mkSim Pio_zero []) =
  PIO_Configure 1 2 4 8 PIO_OUTPUT_1 3 15 (mkSim Pio_zero []).
Proof.
  split; [reflexivity |]. split; [reflexivity |]. split; [reflexivity |].
  exact (PIO_Configure_output_attributes 1 2 4 8 PIO_OUTPUT_1 3 5 15
           (mkSim Pio_zero []) eq_refl eq_refl eq_refl).
Defined.

(** X17. For the input role the outcome of [PIO_Configure] depends on the
    attribute word only through the pull-up, deglitch and debounce
    attributes: the open-drain attribute is not looked at, and the test of
    the word against [PIO_DEGLITCH | PIO_DEBOUNCE] adds nothing to the two
    separate tests. *)
Theorem PIO_Configure_input_attributes :
  forall (PULLUP DEGLITCH OPENDRAIN DEBOUNCE : Z) (m a1 a2 : Z) (s : Sim),
    truthy (Z.land a1 PULLUP) = truthy (Z.land a2 PULLUP) ->
    truthy (Z.land a1 DEGLITCH) = truthy (Z.land a2 DEGLITCH) ->
    truthy (Z.land a1 DEBOUNCE) = truthy (Z.land a2 DEBOUNCE) ->
    PIO_Configure PULLUP DEGLITCH OPENDRAIN DEBOUNCE PIO_INPUT m a1 s =
    PIO_Configure PULLUP DEGLITCH OPENDRAIN DEBOUNCE PIO_INPUT m a2 s.
Proof.
  intros PULLUP DEGLITCH OPENDRAIN DEBOUNCE m a1 a2 s Hpull Hdg Hdb.
  unfold PIO_Configure, PIO_SetInput, PIO_PullUp.
  rewrite !truthy_land_lor, Hpull, Hdg, Hdb. reflexivity.
Qed.

Lemma PIO_Configure_input_attributes_witness :
  truthy (Z.land 3 1) = truthy (Z.land 7 1) /\
  truthy (Z.land 3 2) = truthy (Z.land 7 2) /\
  truthy (Z.land 3 8) = truthy (Z.land 7 8) /\
  PIO_Configure 1 2 4 8 PIO_INPUT 6 3 (mkSim Pio_zero []) =
  PIO_Configure 1 2 4 8 PIO_INPUT 6 7 (mkSim Pio_zero []).
Proof.
  split; [reflexivity |]. split; [reflexivity |]. split; [reflexivity |].
  exact (PIO_Configure_input_attributes 1 2 4 8 6 3 7 (mkSim Pio_zero [])
           eq_refl eq_refl eq_refl).
Defined.

(** X18. In [PIO_SetInput] the input filter and its selection go together:
    the mask is stored to the filter-enable register exactly when the
    deglitch or the debounce attribute is set, to the filter-disable register
    exactly when both are clear, and one of the two filter-select registers
    is stored to exactly when the filter is enabled. *)
Theorem PIO_SetInput_filter_enable :
  forall (PULLUP DEGLITCH DEBOUNCE : Z) (m a : Z) (p : Pio),
    let log :=
      writes (device (run (PIO_SetInput PULLUP DEGLITCH DEBOUNCE m a) p)) in
    let filtered :=
      truthy (Z.land a DEGLITCH) || truthy (Z.land a DEBOUNCE) in
    written IFER log = (if filtered then [m] else []) /\
    written IFDR log = (if filtered then [] else [m]) /\
    length (stores_to [IFSCDR; IFSCER] log) = length (written IFER log).
Proof.
  intros PULLUP DEGLITCH DEBOUNCE m a p log filtered. subst log filtered.
  step_pio. rewrite truthy_land_lor.
  case_attributes; repeat split.
Qed.

(** ** Configuring twice *)

(** A block is its registers. *)
Lemma Pio_eta (p : Pio) :
  p = mkPio (rd PER p) (rd PDR p) (rd PSR p) (rd OER p) (rd ODR p) (rd OSR p)
            (rd IFER p) (rd IFDR p) (rd SODR p) (rd CODR p) (rd ODSR p)
            (rd PDSR p) (rd IDR p) (rd MDER p) (rd MDDR p) (rd PUDR p)
            (rd PUER p) (rd ABCDSR0 p) (rd ABCDSR1 p) (rd IFSCDR p)
            (rd IFSCER p) (rd SCDR p).
Proof. destruct p; reflexivity. Qed.

(** Two blocks with the same content in every register are the same block. *)
Lemma Pio_ext (p q : Pio) : (forall r, rd r p = rd r q) -> p = q.
Proof.
  intros H. rewrite (Pio_eta p), (Pio_eta q), !H. reflexivity.
Qed.

Lemma testbit_not32_any (m i : Z) :
  0 <= i -> Z.testbit (not32 m) i = (i <? 32) && negb (Z.testbit m i).
Proof.
  intros Hi. unfold not32, wrap32.
  rewrite Z.testbit_mod_pow2 by lia. rewrite Z.lnot_spec by exact Hi.
  reflexivity.
Qed.

(** Compares two words bit by bit. *)
Ltac by_bits :=
  apply Z.bits_inj'; intros i Hi;
  rewrite ?Z.lor_spec, ?Z.land_spec, ?Z.lor_spec, ?testbit_not32_any
    by exact Hi;
  repeat match goal with
         | |- context [Z.testbit ?x i] => destruct (Z.testbit x i)
         end;
  destruct (i <? 32); reflexivity.

(** Clearing the masked bits twice is clearing them once, and so for setting
    them; a clearing wipes an earlier setting, and a setting an earlier
    clearing. *)
Lemma clear_clear (m x : Z) :
  Z.land (Z.land x (Z.land (not32 m) x))
         (Z.land (not32 m) (Z.land x (Z.land (not32 m) x)))
  = Z.land x (Z.land (not32 m) x).
Proof. by_bits. Qed.

Lemma set_set (m x : Z) : Z.lor m (Z.lor m x) = Z.lor m x.
Proof. by_bits. Qed.

Lemma clear_set (m x : Z) :
  Z.land (Z.lor m x) (Z.land (not32 m) (Z.lor m x))
  = Z.land x (Z.land (not32 m) x).
Proof. by_bits. Qed.

Lemma set_clear (m x : Z) :
  uint32 x -> Z.lor m (Z.land x (Z.land (not32 m) x)) = Z.lor m x.
Proof.
  intros Hx. apply Z.bits_inj'; intros i Hi.
  rewrite ?Z.lor_spec, ?Z.land_spec, ?Z.lor_spec, ?testbit_not32_any
    by exact Hi.
  destruct (Z.ltb_spec i 32) as [Hlt | Hge].
  - destruct (Z.testbit m i), (Z.testbit x i); reflexivity.
  - rewrite (uint32_high_bit x i Hx Hge).
    destruct (Z.testbit m i); reflexivity.
Qed.

(** X19. The last peripheral role wins: on a block whose selector registers
    hold 32-bit words, [PIO_SetPeripheral] for a role followed by
    [PIO_SetPeripheral] for another role on the same mask leaves every
    register as the second call alone would. *)
Theorem PIO_SetPeripheral_last_role_wins :
  forall (r1 r2 : EPioType) (m : Z) (p : Pio),
    is_peripheral r1 = true ->
    is_peripheral r2 = true ->
    uint32 (PIO_ABCDSR0 p) ->
    uint32 (PIO_ABCDSR1 p) ->
    regs (device (run (PIO_SetPeripheral r1 m ;; PIO_SetPeripheral r2 m) p))
    = regs (device (run (PIO_SetPeripheral r2 m) p)).
Proof.
  intros r1 r2 m p H1 H2 Hs0 Hs1.
  apply Pio_ext. intros r.
  destruct r1; try discriminate H1; destruct r2; try discriminate H2;
    destruct r; try reflexivity;
    first [ exact (clear_clear m _)
          | exact (set_set m _)
          | exact (clear_set m _)
          | exact (set_clear m _ Hs0)
          | exact (set_clear m _ Hs1) ].
Qed.

Lemma PIO_SetPeripheral_last_role_wins_witness :
  is_peripheral PIO_PERIPH_A = true /\
  is_peripheral PIO_PERIPH_D = true /\
  uint32 (PIO_ABCDSR0 (wr ABCDSR0 9 (wr ABCDSR1 12 Pio_zero))) /\
  uint32 (PIO_ABCDSR1 (wr ABCDSR0 9 (wr ABCDSR1 12 Pio_zero))) /\
  regs (device (run (PIO_SetPeripheral PIO_PERIPH_A 5 ;;
                     PIO_SetPeripheral PIO_PERIPH_D 5)
                    (wr ABCDSR0 9 (wr ABCDSR1 12 Pio_zero))))
  = regs (device (run (PIO_SetPeripheral PIO_PERIPH_D 5)
                      (wr ABCDSR0 9 (wr ABCDSR1 12 Pio_zero)))).
Proof.
  assert (H0 : uint32 (PIO_ABCDSR0 (wr ABCDSR0 9 (wr ABCDSR1 12 Pio_zero))))
    by (unfold uint32; cbn; lia).
  assert (H1 : uint32 (PIO_ABCDSR1 (wr ABCDSR0 9 (wr ABCDSR1 12 Pio_zero))))
    by (unfold uint32; cbn; lia).
  split; [reflexivity |]. split; [reflexivity |].
  split; [exact H0 |]. split; [exact H1 |].
  exact (PIO_SetPeripheral_last_role_wins PIO_PERIPH_A PIO_PERIPH_D 5
           (wr ABCDSR0 9 (wr ABCDSR1 12 Pio_zero)) eq_refl eq_refl H0 H1).
Defined.

(** X20. [PIO_Configure] is idempotent on the registers: the same call issued
    twice in a row leaves every register as the first call left it, for
    every role, mask, attribute word and starting device. *)
Theorem PIO_Configure_idempotent :
  forall (PULLUP DEGLITCH OPENDRAIN DEBOUNCE : Z)
         (ty : EPioType) (m a : Z) (s : Sim),
    regs (device
      ((PIO_Configure PULLUP DEGLITCH OPENDRAIN DEBOUNCE ty m a ;;
        PIO_Configure PULLUP DEGLITCH OPENDRAIN DEBOUNCE ty m a) s))
    = regs (device
        (PIO_Configure PULLUP DEGLITCH OPENDRAIN DEBOUNCE ty m a s)).
Proof.
  intros PULLUP DEGLITCH OPENDRAIN DEBOUNCE ty m a s.
  destruct ty; step_pio; case_attributes;
    apply Pio_ext; intros r; destruct r;
    match goal with
    | |- rd ABCDSR0 _ = _ =>
        first [ exact (clear_clear m _) | exact (set_set m _)
              | vm_compute; reflexivity ]
    | |- rd ABCDSR1 _ = _ =>
        first [ exact (clear_clear m _) | exact (set_set m _)
              | vm_compute; reflexivity ]
    | _ => vm_compute; reflexivity
    end.
Qed.

(** ** Words stay words *)

Lemma uint32_of_high_bits (x : Z) :
  (forall i, 32 <= i -> Z.testbit x i = false) -> uint32 x.
Proof.
  intros Hhigh.
  assert (Hx : x mod 2 ^ 32 = x).
  { apply Z.bits_inj'. intros i Hi.
    rewrite Z.testbit_mod_pow2 by lia.
    destruct (Z.ltb_spec i 32) as [_ | Hge]; [reflexivity |].
    rewrite Hhigh by exact Hge. reflexivity. }
  unfold uint32. rewrite <- Hx. apply Z.mod_pos_bound. lia.
Qed.

Lemma uint32_lor (a b : Z) : uint32 a -> uint32 b -> uint32 (Z.lor a b).
Proof.
  intros Ha Hb. apply uint32_of_high_bits. intros i Hi.
  rewrite Z.lor_spec, (uint32_high_bit a i Ha Hi), (uint32_high_bit b i Hb Hi).
  reflexivity.
Qed.

Lemma uint32_land_l (a b : Z) : uint32 a -> uint32 (Z.land a b).
Proof.
  intros Ha. apply uint32_of_high_bits. intros i Hi.
  rewrite Z.land_spec, (uint32_high_bit a i Ha Hi). reflexivity.
Qed.

Lemma uint32_land_r (a b : Z) : uint32 b -> uint32 (Z.land a b).
Proof. rewrite Z.land_comm. apply uint32_land_l. Qed.

Lemma Pio_wf_wr (r : Reg) (v : Z) (p : Pio) :
  Pio_wf p -> uint32 v -> Pio_wf (wr r v p).
Proof.
  intros Hp Hv r'. destruct (Reg_eq_dec r r') as [<- | Hne].
  - rewrite rd_wr_same. exact Hv.
  - rewrite rd_wr_other by exact Hne. apply Hp.
Qed.

Lemma Pio_wf_zero : Pio_wf Pio_zero.
Proof. intros r. destruct r; unfold uint32; cbn; lia. Defined.

(** Chains of stores of words keep a block of words. *)
Ltac wf_stores :=
  repeat first
    [ assumption
    | apply Pio_wf_wr
    | apply uint32_lor
    | apply uint32_land_l
    | match goal with
      | H : Pio_wf ?p |- uint32 (rd ?r ?p) => exact (H r)
      end ].

(** X21. A block of 32-bit words stays one: after [PIO_Configure] with a
    32-bit mask, whatever the role and the attribute word, every register of
    the block still holds a 32-bit word; in particular the selector updates
    of the peripheral roles never leave the range. *)
Theorem PIO_Configure_keeps_words :
  forall (PULLUP DEGLITCH OPENDRAIN DEBOUNCE : Z)
         (ty : EPioType) (m a : Z) (p : Pio),
    Pio_wf p -> uint32 m ->
    Pio_wf (regs (device
      (run (PIO_Configure PULLUP DEGLITCH OPENDRAIN DEBOUNCE ty m a) p))).
Proof.
  intros PULLUP DEGLITCH OPENDRAIN DEBOUNCE ty m a p Hp Hm.
  destruct ty; step_pio; case_attributes;
    cbn [bind ret store load device regs writes rd];
    try change (PIO_ABCDSR0 ?q) with (rd ABCDSR0 q);
    try change (PIO_ABCDSR1 ?q) with (rd ABCDSR1 q);
    rewrite ?rd_wr_same, ?rd_wr_other by discriminate;
    wf_stores.
Qed.

Lemma PIO_Configure_keeps_words_witness :
  Pio_wf Pio_zero /\ uint32 9 /\
  Pio_wf (regs (device (run (PIO_Configure 1 2 4 8 PIO_PERIPH_B 9 1)
                            Pio_zero))).
Proof.
  assert (Hm : uint32 9) by (unfold uint32; lia).
  split; [exact Pio_wf_zero |]. split; [exact Hm |].
  exact (PIO_Configure_keeps_words 1 2 4 8 PIO_PERIPH_B 9 1 Pio_zero
           Pio_wf_zero Hm).
Defined.

Lemma land_low14_range (x : Z) : 0 <= Z.land x 0x3FFF < 2 ^ 14.
Proof.
  change 0x3FFF with (Z.ones 14). rewrite Z.land_ones by lia.
  apply Z.mod_pos_bound. lia.
Qed.

(** X22. Whatever the cutoff, in range or not, [PIO_SetDebounceFilter] keeps a
    block of 32-bit words one, and a divider it stores fits the 14 bits of
    the divider field. *)
Theorem PIO_SetDebounceFilter_keeps_words :
  forall (m c : Z) (p : Pio),
    Pio_wf p -> uint32 m ->
    let o := run (PIO_SetDebounceFilter m c) p in
    Pio_wf (regs (device o)) /\
    Forall (fun v => 0 <= v < 2 ^ 14) (written SCDR (writes (device o))).
Proof.
  intros m c p Hp Hm o. subst o.
  destruct (Z.eq_dec (mul32 2 c) 0) as [Hz | Hnz].
  - rewrite PIO_SetDebounceFilter_faults by exact Hz. cbn [device regs writes].
    split; [wf_stores | constructor].
  - rewrite PIO_SetDebounceFilter_returns by exact Hnz.
    cbn [device regs writes].
    pose proof (land_low14_range (sub32 (32678 / mul32 2 c) 1)) as Hr.
    split.
    + apply Pio_wf_wr; [wf_stores |]. unfold uint32. lia.
    + repeat constructor; apply Hr.
Qed.

Lemma PIO_SetDebounceFilter_keeps_words_witness :
  Pio_wf Pio_zero /\ uint32 9 /\
  let o := run (PIO_SetDebounceFilter 9 70000) Pio_zero in
  Pio_wf (regs (device o)) /\
  Forall (fun v => 0 <= v < 2 ^ 14) (written SCDR (writes (device o))).
Proof.
  assert (Hm : uint32 9) by (unfold uint32; lia).
  split; [exact Pio_wf_zero |]. split; [exact Hm |].
  exact (PIO_SetDebounceFilter_keeps_words 9 70000 Pio_zero Pio_wf_zero Hm).
Defined.
